(** * Offloading-model formula library ([utils.py])

    [utils.py] is a flat collection of pure numeric functions: execution
    time and energy on the local device, on the MEC server and on the idle
    device (Eq. 1-8), SINR, Shannon rate, transmission time and energy
    (Eq. 9-16), offloading delay and total task time (Eq. 17-18).

    The Python functions are duck-typed: they use only [+], [-], [*], [/],
    [>] (inside [max]) and [math.log2], so the same text runs on any Python
    number type.  The embedding keeps that shape.  Every function is
    written once, over the interface [PyNum] (and [PyLog2] for
    [math.log2]), and is then read at two instances:

    - [R]: exact arithmetic, the mathematical reading of the formulas;
    - [float]: IEEE 754 binary64 with round-to-nearest-even, which is what
      a Python [float] is (an [int] argument is converted to it by the
      first operation that meets a float).

    Python raises on a zero divisor and on a logarithm outside its domain;
    the functions that divide or take a logarithm therefore return a
    [result]. *)

From Stdlib Require Import Reals Lra Floats ZArith Bool Lia.

(** ** Exceptions *)

(** The two exceptions the library can raise: [/] with a zero divisor, and
    [math.log2] outside its domain. *)
Inductive exn : Set :=
| ZeroDivisionError
| ValueError.

Inductive result (A : Type) : Type :=
| Ok (a : A)
| Raise (e : exn).

Arguments Ok {A} a.
Arguments Raise {A} e.

Definition bind {A B : Type} (r : result A) (k : A -> result B) : result B :=
  match r with
  | Ok a => k a
  | Raise e => Raise e
  end.

Notation "x <- r ;; k" := (bind r (fun x => k))
  (at level 61, r at next level, right associativity).

(** ** The numeric interface *)

(** What the source asks of its arguments.  [zero] and [one] are the int
    literals [0] and [1] after Python's promotion to the type of the other
    operand.  [truediv] is the quotient computed by [/] once the divisor is
    known to be non-zero; [is_zero b] is the test [b == 0] that [/] makes
    first; [gt a b] is [a > b]. *)
Class PyNum (T : Type) : Type := {
  zero : T;
  one : T;
  add : T -> T -> T;
  sub : T -> T -> T;
  mul : T -> T -> T;
  truediv : T -> T -> T;
  is_zero : T -> bool;
  gt : T -> T -> bool
}.

(** [math.log2]. *)
Class PyLog2 (T : Type) : Type := {
  log2 : T -> result T
}.

(** Python's [a / b]. *)
Definition div {T : Type} `{PyNum T} (a b : T) : result T :=
  if is_zero b then Raise ZeroDivisionError else Ok (truediv a b).

(** Python's builtin [max(a, b)]: it starts from [a] and replaces it by [b]
    only when [b > a]. *)
Definition max {T : Type} `{PyNum T} (a b : T) : T :=
  if gt b a then b else a.

Declare Scope py_scope.
Delimit Scope py_scope with py.
Infix "+" := add : py_scope.
Infix "-" := sub : py_scope.
Infix "*" := mul : py_scope.
Infix "/" := div : py_scope.

(** ** The functions of [utils.py] *)

Section Utils.

Context {T : Type} `{PyNum T}.

Local Open Scope py_scope.

(** Eq. 3 *)
Definition calculate_task_execution_time_on_local (C d F x : T) : result T :=
  (one - x) * C * d / F.

(** Eq. 1 *)
Definition calculate_full_task_execution_time_on_local (C d F : T) : result T :=
  calculate_task_execution_time_on_local C d F zero.

(** Eq. 4 *)
Definition calculate_task_execution_energy_consumption_on_local
    (C d theta_exe x : T) : T :=
  let b := C * d in
  b * (one - x) * theta_exe.

(** Eq. 2 *)
Definition calculate_full_task_execution_energy_consumption_on_local
    (C d theta_exe : T) : T :=
  calculate_task_execution_energy_consumption_on_local C d theta_exe zero.

(** Eq. 5 *)
Definition calculate_partial_task_execution_time_on_mec
    (x d omega C f : T) : result T :=
  let I := x * d in
  C * (one - omega) * I / f.

(** Eq. 6 *)
Definition calculate_partial_task_execution_energy_consumption_on_mec
    (x d omega C theta_exe : T) : T :=
  let I := x * d in
  C * (one - omega) * I * theta_exe.

(** Eq. 7 *)
Definition calculate_partial_task_execution_time_on_id
    (C omega x d f_id : T) : result T :=
  let I := x * d in
  C * omega * I / f_id.

(** Eq. 8 *)
Definition calculate_partial_task_execution_energy_consumption_on_ID
    (C omega x d theta_exe : T) : T :=
  let I := x * d in
  C * omega * I * theta_exe.

(** Eq. 9 *)
Definition calculate_sinr_eu_to_bs
    (P_tran_i_bs G_i_bs sigma_sq interference_sum : T) : result T :=
  (P_tran_i_bs * G_i_bs) / (sigma_sq + interference_sum).

(** Eq. 10 *)
Definition calculate_sinr_bs_to_id (P_tran_bs_j G_bs_j sigma_sq : T) : result T :=
  (P_tran_bs_j * G_bs_j) / sigma_sq.

(** Eq. 11-12 *)
Definition calculate_transmission_rate `{PyLog2 T} (B_m sinr : T) : result T :=
  l <- log2 (one + sinr) ;;
  Ok (B_m * l).

(** Eq. 13 *)
Definition calculate_eu_to_bs_transmission_time (x d R_i_bs : T) : result T :=
  (x * d) / R_i_bs.

(** Eq. 15 *)
Definition calculate_bs_to_id_transmission_time (omega x d R_bs_j : T) : result T :=
  (omega * x * d) / R_bs_j.

(** Eq. 14 *)
Definition calculate_eu_transmission_energy
    (P_tran_i_bs t_tran_i_bs theta_tran : T) : T :=
  P_tran_i_bs * t_tran_i_bs * theta_tran.

(** Eq. 16 *)
Definition calculate_bs_transmission_energy
    (P_tran_bs_j t_tran_bs_j theta_tran : T) : T :=
  P_tran_bs_j * t_tran_bs_j * theta_tran.

(** Eq. 17 *)
Definition calculate_offloading_delay
    (t_tran_i_bs t_mec t_id t_tran_bs_j : T) : T :=
  t_tran_i_bs + max t_mec (t_id + t_tran_bs_j).

(** Eq. 18 *)
Definition calculate_total_task_time (t_local t_off : T) : T :=
  max t_local t_off.

End Utils.

(** ** Exact arithmetic *)

Definition R_is_zero (x : R) : bool :=
  if Req_dec_T x 0 then true else false.

Definition R_gt (x y : R) : bool :=
  if Rgt_dec x y then true else false.

#[export] Instance PyNum_R : PyNum R := {
  zero := 0%R;
  one := 1%R;
  add := Rplus;
  sub := Rminus;
  mul := Rmult;
  truediv := Rdiv;
  is_zero := R_is_zero;
  gt := R_gt
}.

(** The base-2 logarithm, defined on the positive reals; [math.log2]
    raises [ValueError] elsewhere. *)
Definition R_log2 (x : R) : result R :=
  if Rlt_dec 0 x then Ok (ln x / ln 2)%R else Raise ValueError.

#[export] Instance PyLog2_R : PyLog2 R := {
  log2 := R_log2
}.

(** ** Binary64 *)

Definition float_is_zero (x : float) : bool := PrimFloat.eqb x 0%float.

Definition float_gt (x y : float) : bool := PrimFloat.ltb y x.

#[export] Instance PyNum_float : PyNum float := {
  zero := 0%float;
  one := 1%float;
  add := PrimFloat.add;
  sub := PrimFloat.sub;
  mul := PrimFloat.mul;
  truediv := PrimFloat.div;
  is_zero := float_is_zero;
  gt := float_gt
}.

(** [math.log2] on a float.  The interpreter screens the argument itself:
    a NaN is returned as it is, [+inf] gives [+inf], a positive finite
    argument goes to the C library's [log2] (the parameter [libm_log2]),
    and everything else (zero, negative, [-inf]) is a domain error. *)
Definition float_log2 (libm_log2 : float -> float) (x : float) : result float :=
  if is_nan x then Ok x
  else if PrimFloat.ltb 0%float x
       then Ok (if is_infinity x then x else libm_log2 x)
       else Raise ValueError.

Definition PyLog2_float (libm_log2 : float -> float) : PyLog2 float := {|
  log2 := float_log2 libm_log2
|}.

(** ** Outcomes *)


(** A spec float that is zero, or carries the sign [sx]; never a NaN. *)
Definition zero_or_signed (sx : bool) (r : spec_float) : Prop :=
  match r with
  | S754_zero _ => True
  | S754_infinity s | S754_finite s _ _ => s = sx
  | S754_nan => False
  end.

(** Two calls both return, and the first value is at most (resp. below)
    the second. *)
Definition result_le (r1 r2 : result R) : Prop :=
  match r1, r2 with
  | Ok v1, Ok v2 => (v1 <= v2)%R
  | _, _ => False
  end.

Definition result_lt (r1 r2 : result R) : Prop :=
  match r1, r2 with
  | Ok v1, Ok v2 => (v1 < v2)%R
  | _, _ => False
  end.

(** * Properties *)

(** The general statements below are about exact arithmetic (instance
    [R]) or about every number type.  The worked examples are also run on
    the [float] instance, as the interpreter runs them: a decimal literal
    such as [0.3%float] denotes the nearest binary64 number, as it does in
    Python, and every operation rounds to nearest. *)

Local Open Scope R_scope.
Set Warnings "-inexact-float".

Ltac unfold_utils :=
  unfold calculate_full_task_execution_time_on_local,
    calculate_task_execution_time_on_local,
    calculate_full_task_execution_energy_consumption_on_local,
    calculate_task_execution_energy_consumption_on_local,
    calculate_partial_task_execution_time_on_mec,
    calculate_partial_task_execution_energy_consumption_on_mec,
    calculate_partial_task_execution_time_on_id,
    calculate_partial_task_execution_energy_consumption_on_ID,
    calculate_sinr_eu_to_bs, calculate_sinr_bs_to_id,
    calculate_transmission_rate,
    calculate_eu_to_bs_transmission_time,
    calculate_bs_to_id_transmission_time,
    calculate_eu_transmission_energy, calculate_bs_transmission_energy,
    calculate_offloading_delay, calculate_total_task_time.

(** ** The primitives at [R] *)

Lemma div_R_nonzero (a b : R) : b <> 0 -> div a b = Ok (a / b).
Proof.
  intros Hb. unfold div. cbn. unfold R_is_zero.
  destruct (Req_dec_T b 0) as [E | _]; [contradiction | reflexivity].
Qed.

Lemma div_R_zero (a : R) : div a 0 = Raise ZeroDivisionError.
Proof.
  unfold div. cbn. unfold R_is_zero.
  destruct (Req_dec_T 0 0) as [_ | N]; [reflexivity | now elim N].
Qed.

Lemma max_R_Rmax (a b : R) : max a b = Rmax a b.
Proof.
  unfold max, Rmax. cbn. unfold R_gt.
  destruct (Rgt_dec b a) as [G | G], (Rle_dec a b) as [L | L];
    try reflexivity; lra.
Qed.

Lemma log2_R_pos (x : R) : 0 < x -> log2 x = Ok (ln x / ln 2).
Proof.
  intros Hx. cbn. unfold R_log2.
  destruct (Rlt_dec 0 x) as [_ | N]; [reflexivity | contradiction].
Qed.

Lemma log2_R_nonpos (x : R) : x <= 0 -> log2 x = Raise ValueError.
Proof.
  intros Hx. cbn. unfold R_log2.
  destruct (Rlt_dec 0 x) as [P | _]; [lra | reflexivity].
Qed.

Lemma ln_2_pos : 0 < ln 2.
Proof.
  rewrite <- ln_1. apply ln_increasing; lra.
Qed.

Lemma ln_nonneg (x : R) : 1 <= x -> 0 <= ln x.
Proof.
  intros [Hx | <-].
  - left. rewrite <- ln_1. apply ln_increasing; lra.
  - rewrite ln_1. lra.
Qed.

(** ** The primitives at every number type *)

Lemma div_zero_divisor {T : Type} `{PyNum T} (a b : T) :
  is_zero b = true -> div a b = Raise ZeroDivisionError.
Proof.
  intros Hb. unfold div. now rewrite Hb.
Qed.

Lemma max_idempotent {T : Type} `{PyNum T} (a b : T) :
  max a (max a b) = max a b.
Proof.
  unfold max. destruct (gt b a) eqn:E.
  - now rewrite E.
  - now destruct (gt a a).
Qed.

(** ** Local execution *)

(** C1. In exact arithmetic, for [0 <= C], [0 <= d], [0 < F] and
    [0 <= x <= 1], [calculate_task_execution_time_on_local C d F x]
    returns [(1 - x) * C * d / F]; at [C = 1000], [d = 1e6], [F = 1e9],
    [x = 0.3] it returns [0.7], and
    [calculate_full_task_execution_time_on_local] at the same [C], [d],
    [F] returns [1].  The binary64 run of the example returns the floats
    [0.7] and [1.0]. *)
Theorem local_execution_time_formula :
  (forall C d F x : R,
      0 <= C -> 0 <= d -> 0 < F -> 0 <= x <= 1 ->
      calculate_task_execution_time_on_local C d F x
      = Ok ((1 - x) * C * d / F))
  /\ calculate_task_execution_time_on_local 1000 1e6 1e9 0.3 = Ok 0.7
  /\ calculate_full_task_execution_time_on_local 1000 1e6 1e9 = Ok 1
  /\ calculate_task_execution_time_on_local
       1000%float 1e6%float 1e9%float 0.3%float
     = Ok 0.7%float
  /\ calculate_full_task_execution_time_on_local 1000%float 1e6%float 1e9%float
     = Ok 1%float.
Proof.
  assert (G : forall C d F x : R, 0 < F ->
             calculate_task_execution_time_on_local C d F x
             = Ok ((1 - x) * C * d / F)).
  { intros C d F x HF. unfold_utils. cbn. apply div_R_nonzero. lra. }
  split; [| split; [| split; [| split]]].
  - intros C d F x _ _ HF _. now apply G.
  - rewrite G by lra. f_equal. lra.
  - unfold calculate_full_task_execution_time_on_local.
    rewrite G by lra. cbn. f_equal. lra.
  - reflexivity.
  - reflexivity.
Qed.

Lemma local_execution_time_formula_witness :
  calculate_task_execution_time_on_local 2 3 4 (1 / 2)
  = Ok ((1 - 1 / 2) * 2 * 3 / 4).
Proof.
  apply (proj1 local_execution_time_formula 2 3 4 (1 / 2)); lra.
Defined.

(** C2. The "full local" functions are the partial ones at offloading
    ratio [x = 0], for every number type; in exact arithmetic, for
    [0 <= C], [0 <= d], [0 < F] and [0 <= theta_exe], that common value
    is [C * d / F] (time) and [C * d * theta_exe] (energy). *)
Theorem full_local_is_partial_at_zero :
  (forall (T : Type) (N : PyNum T) (C d F theta_exe : T),
      calculate_full_task_execution_time_on_local C d F
      = calculate_task_execution_time_on_local C d F zero
      /\ calculate_full_task_execution_energy_consumption_on_local C d theta_exe
         = calculate_task_execution_energy_consumption_on_local C d theta_exe zero)
  /\ (forall C d F theta_exe : R,
         0 <= C -> 0 <= d -> 0 < F -> 0 <= theta_exe ->
         calculate_full_task_execution_time_on_local C d F
         = calculate_task_execution_time_on_local C d F 0
         /\ calculate_task_execution_time_on_local C d F 0 = Ok (C * d / F)
         /\ calculate_full_task_execution_energy_consumption_on_local C d theta_exe
            = calculate_task_execution_energy_consumption_on_local C d theta_exe 0
         /\ calculate_task_execution_energy_consumption_on_local C d theta_exe 0
            = C * d * theta_exe).
Proof.
  split.
  - intros T N C d F theta_exe. split; reflexivity.
  - intros C d F theta_exe _ _ HF _.
    split; [reflexivity |]. split; [| split; [reflexivity |]].
    + unfold_utils. cbn. rewrite div_R_nonzero by lra.
      f_equal. field. lra.
    + unfold_utils. cbn. ring.
Qed.

Lemma full_local_is_partial_at_zero_witness :
  calculate_full_task_execution_time_on_local 2 3 4
  = calculate_task_execution_time_on_local 2 3 4 0
  /\ calculate_task_execution_time_on_local 2 3 4 0 = Ok (2 * 3 / 4)
  /\ calculate_full_task_execution_energy_consumption_on_local 2 3 5
     = calculate_task_execution_energy_consumption_on_local 2 3 5 0
  /\ calculate_task_execution_energy_consumption_on_local 2 3 5 0
     = 2 * 3 * 5.
Proof.
  apply (proj2 full_local_is_partial_at_zero 2 3 4 5); lra.
Defined.

(** ** Non-negative outputs *)






(** ** Delay and total time *)

(** C4. For all real inputs [calculate_offloading_delay] returns
    [t_tran_i_bs + max (t_mec, t_id + t_tran_bs_j)]; at [0.1], [0.5],
    [0.2], [0.05] it returns [0.6].  The binary64 run of the example
    returns the float [0.6]. *)
Theorem offloading_delay_formula :
  (forall t_tran_i_bs t_mec t_id t_tran_bs_j : R,
      calculate_offloading_delay t_tran_i_bs t_mec t_id t_tran_bs_j
      = t_tran_i_bs + Rmax t_mec (t_id + t_tran_bs_j))
  /\ calculate_offloading_delay 0.1 0.5 0.2 0.05 = 0.6
  /\ calculate_offloading_delay 0.1%float 0.5%float 0.2%float 0.05%float
     = 0.6%float.
Proof.
  assert (G : forall a b c e : R,
             calculate_offloading_delay a b c e = a + Rmax b (c + e)).
  { intros a b c e. unfold_utils. cbn. now rewrite max_R_Rmax. }
  split; [exact G | split].
  - rewrite G. rewrite Rmax_left by lra. lra.
  - reflexivity.
Qed.

(** C5. For all reals [a, b >= 0], [calculate_total_task_time a b] is
    [max (a, b)], and applying it again with the same first argument
    changes nothing; the second fact holds for every number type. *)
Theorem total_task_time_is_max :
  (forall a b : R,
      0 <= a -> 0 <= b ->
      calculate_total_task_time a b = Rmax a b
      /\ calculate_total_task_time a (calculate_total_task_time a b)
         = calculate_total_task_time a b)
  /\ (forall (T : Type) (N : PyNum T) (a b : T),
         calculate_total_task_time a (calculate_total_task_time a b)
         = calculate_total_task_time a b).
Proof.
  split.
  - intros a b _ _. split.
    + apply max_R_Rmax.
    + apply max_idempotent.
  - intros T N a b. apply max_idempotent.
Qed.

Lemma total_task_time_is_max_witness :
  calculate_total_task_time 2 5 = Rmax 2 5
  /\ calculate_total_task_time 2 (calculate_total_task_time 2 5)
     = calculate_total_task_time 2 5.
Proof.
  apply (proj1 total_task_time_is_max 2 5); lra.
Defined.

(** ** SINR and rate *)

(** C6, as worded, fails: it bounds [P], [G] and [sigma_sq] but leaves
    the interference free, and with [interference = - sigma_sq] the
    divisor is zero, so the call raises instead of returning. *)
Lemma sinr_eu_to_bs_raises_on_cancelling_interference :
  (0 <= 1 /\ 0 <= 1 /\ 0 < 1)
  /\ calculate_sinr_eu_to_bs 1 1 1 (-1) = Raise ZeroDivisionError
  /\ calculate_sinr_eu_to_bs 1 1 1 (-1) <> Ok (1 * 1 / (1 + -1)).
Proof.
  assert (E : calculate_sinr_eu_to_bs 1 1 1 (-1) = Raise ZeroDivisionError).
  { unfold_utils. cbn. replace (1 + -1) with 0 by ring. apply div_R_zero. }
  split; [lra |]. split; [exact E |].
  rewrite E. discriminate.
Qed.

(** C6, amended.  In exact arithmetic, for [0 <= P], [0 <= G],
    [0 < sigma_sq] and an interference that does not cancel the noise
    ([sigma_sq + interference <> 0], which every [interference >= 0]
    satisfies), [calculate_sinr_eu_to_bs P G sigma_sq interference] returns
    [P * G / (sigma_sq + interference)];
    [calculate_sinr_bs_to_id P G sigma_sq] is
    [calculate_sinr_eu_to_bs P G sigma_sq 0]; and
    [calculate_sinr_eu_to_bs 0.1 1e-6 1e-9 0] returns [100].  The
    binary64 run of the example rounds the product and the quotient and
    returns the float just below [100], printed [99.99999999999999]. *)
Theorem sinr_formula :
  (forall P G sigma_sq interference : R,
      0 <= P -> 0 <= G -> 0 < sigma_sq -> sigma_sq + interference <> 0 ->
      calculate_sinr_eu_to_bs P G sigma_sq interference
      = Ok (P * G / (sigma_sq + interference)))
  /\ (forall P G sigma_sq : R,
         0 <= P -> 0 <= G -> 0 < sigma_sq ->
         calculate_sinr_bs_to_id P G sigma_sq
         = calculate_sinr_eu_to_bs P G sigma_sq 0)
  /\ calculate_sinr_eu_to_bs 0.1 1e-6 1e-9 0 = Ok 100
  /\ calculate_sinr_eu_to_bs 0.1%float 1e-6%float 1e-9%float 0%float
     = Ok 0x1.8ffffffffffffp+6%float
  /\ next_up 0x1.8ffffffffffffp+6%float = 100%float.
Proof.
  assert (G0 : forall P G s i : R, s + i <> 0 ->
              calculate_sinr_eu_to_bs P G s i = Ok (P * G / (s + i))).
  { intros P G s i Hsi. unfold_utils. cbn. now apply div_R_nonzero. }
  split; [| split; [| split; [| split]]].
  - intros P G s i _ _ _ Hsi. now apply G0.
  - intros P G s _ _ _. unfold_utils. cbn. now rewrite Rplus_0_r.
  - rewrite G0 by lra. f_equal. lra.
  - reflexivity.
  - reflexivity.
Qed.

Lemma sinr_formula_witness :
  calculate_sinr_eu_to_bs 2 3 4 1 = Ok (2 * 3 / (4 + 1))
  /\ calculate_sinr_bs_to_id 2 3 4 = calculate_sinr_eu_to_bs 2 3 4 0.
Proof.
  split.
  - apply (proj1 sinr_formula 2 3 4 1); lra.
  - apply (proj1 (proj2 sinr_formula) 2 3 4); lra.
Defined.

(** C7. In exact arithmetic, for every [B > 0],
    [calculate_transmission_rate B 0] returns exactly [0], and for every
    [sinr >= 0] the call returns [B * log2 (1 + sinr)], which is
    non-negative. *)
Theorem transmission_rate_zero_and_nonneg (B : R) :
  0 < B ->
  calculate_transmission_rate B 0 = Ok 0
  /\ (forall sinr : R,
         0 <= sinr ->
         calculate_transmission_rate B sinr
         = Ok (B * (ln (1 + sinr) / ln 2))
         /\ 0 <= B * (ln (1 + sinr) / ln 2)).
Proof.
  intros HB.
  assert (G : forall sinr : R, 0 <= sinr ->
             calculate_transmission_rate B sinr
             = Ok (B * (ln (1 + sinr) / ln 2))).
  { intros sinr Hs. unfold_utils.
    change (@add R _ (@one R _) sinr) with (1 + sinr).
    rewrite log2_R_pos by lra. reflexivity. }
  split.
  - rewrite G by lra. f_equal.
    replace (1 + 0) with 1 by ring. rewrite ln_1. unfold Rdiv. ring.
  - intros sinr Hs. split; [now apply G |].
    apply Rmult_le_pos; [lra |].
    apply Rmult_le_pos; [apply ln_nonneg; lra |].
    left. apply Rinv_0_lt_compat. exact ln_2_pos.
Qed.

Lemma transmission_rate_zero_and_nonneg_witness :
  calculate_transmission_rate 1e6 0 = Ok 0
  /\ (forall sinr : R,
         0 <= sinr ->
         calculate_transmission_rate 1e6 sinr
         = Ok (1e6 * (ln (1 + sinr) / ln 2))
         /\ 0 <= 1e6 * (ln (1 + sinr) / ln 2)).
Proof.
  apply (@transmission_rate_zero_and_nonneg 1e6); lra.
Defined.

(** ** The sign of a binary64 sum *)

Lemma shr_1_nonneg (mrs : shr_record) :
  (0 <= shr_m mrs)%Z -> (0 <= shr_m (shr_1 mrs))%Z.
Proof.
  destruct mrs as [m r s]. cbn.
  destruct m as [| [p | p |] | p]; cbn; lia.
Qed.

Lemma iter_pos_invariant {A : Type} (f : A -> A) (Inv : A -> Prop) :
  (forall x, Inv x -> Inv (f x)) ->
  forall (n : positive) (x : A), Inv x -> Inv (SpecFloat.iter_pos f n x).
Proof.
  intros Hf. induction n as [n IH | n IH |]; intros x Hx; cbn; auto.
Qed.

Lemma shr_fexp_nonneg (m e : Z) (l : location) :
  (0 <= m)%Z -> (0 <= shr_m (fst (shr_fexp prec emax m e l)))%Z.
Proof.
  intros Hm. unfold shr_fexp, shr.
  assert (H0 : (0 <= shr_m (shr_record_of_loc m l))%Z).
  { destruct l as [| []]; exact Hm. }
  destruct (fexp prec emax (Zdigits2 m + e) - e)%Z; cbn; try exact H0.
  now apply iter_pos_invariant; [exact shr_1_nonneg |].
Qed.

Lemma round_nearest_even_nonneg (m : Z) (l : location) :
  (0 <= m)%Z -> (0 <= round_nearest_even m l)%Z.
Proof.
  intros Hm. destruct l as [| []]; cbn; try lia.
  destruct (Z.even m); lia.
Qed.

Lemma binary_round_aux_signed (sx : bool) (mx ex : Z) (lx : location) :
  (0 <= mx)%Z -> zero_or_signed sx (binary_round_aux prec emax sx mx ex lx).
Proof.
  intros Hm. unfold binary_round_aux.
  pose proof (shr_fexp_nonneg mx ex lx Hm) as H1.
  destruct (shr_fexp prec emax mx ex lx) as [mrs' e']. cbn in H1.
  pose proof (shr_fexp_nonneg
                (round_nearest_even (shr_m mrs') (loc_of_shr_record mrs'))
                e' loc_Exact
                (round_nearest_even_nonneg _ _ H1)) as H2.
  destruct (shr_fexp prec emax _ e' loc_Exact) as [mrs'' e'']. cbn in H2.
  destruct (shr_m mrs'') as [| p | p]; cbn.
  - exact I.
  - destruct (Z.leb _ _); reflexivity.
  - lia.
Qed.

Lemma binary_normalize_nonpos (z e : Z) (szero : bool) :
  (z <= 0)%Z -> zero_or_signed true (binary_normalize prec emax z e szero).
Proof.
  intros Hz. destruct z as [| p | p]; cbn.
  - exact I.
  - lia.
  - unfold binary_round.
    destruct (shl_align p e _) as [mz ez].
    now apply binary_round_aux_signed.
Qed.

Lemma digits2_pos_lower (m : positive) :
  (2 ^ (Z.pos (digits2_pos m) - 1) <= Z.pos m)%Z.
Proof.
  induction m as [m IH | m IH |]; cbn [digits2_pos].
  - rewrite Pos2Z.inj_succ.
    replace (Z.succ (Z.pos (digits2_pos m)) - 1)%Z
      with (Z.succ (Z.pos (digits2_pos m) - 1))%Z by lia.
    rewrite Z.pow_succ_r by lia. lia.
  - rewrite Pos2Z.inj_succ.
    replace (Z.succ (Z.pos (digits2_pos m)) - 1)%Z
      with (Z.succ (Z.pos (digits2_pos m) - 1))%Z by lia.
    rewrite Z.pow_succ_r by lia. lia.
  - cbn. lia.
Qed.

Lemma shl_align_grows (m : positive) (e e' : Z) :
  (Z.pos m <= Z.pos (fst (shl_align m e e')))%Z.
Proof.
  unfold shl_align. destruct (e' - e)%Z as [| d | d]; cbn; try lia.
  apply Pos.iter_invariant with (Inv := fun q => (Z.pos m <= Z.pos q)%Z).
  - intros q Hq. lia.
  - lia.
Qed.

(** A valid binary64 mantissa at an exponent of at least [-52] has all
    its 53 bits. *)
Lemma bounded_normal (m : positive) (e : Z) :
  bounded prec emax m e = true -> (-52 <= e)%Z ->
  (2 ^ 52 <= Z.pos m)%Z.
Proof.
  unfold bounded, canonical_mantissa, fexp, emin, prec, emax.
  intros Hb He. apply andb_prop in Hb as [Hc _].
  apply Z.eqb_eq in Hc.
  assert (Hd : Z.pos (digits2_pos m) = 53%Z) by lia.
  pose proof (digits2_pos_lower m) as Hl. rewrite Hd in Hl.
  exact Hl.
Qed.

Lemma SF64add_one_le_minus_one (s : spec_float) :
  valid_binary s = true ->
  SFleb s (Prim2SF (-1)%float) = true ->
  zero_or_signed true (SF64add (Prim2SF 1%float) s).
Proof.
  intros Hv Hle.
  change (Prim2SF (-1)%float)
    with (S754_finite true 4503599627370496 (-52)) in Hle.
  change (Prim2SF 1%float) with (S754_finite false 4503599627370496 (-52)).
  unfold SF64add, SFadd, SFleb, SFcompare in *.
  destruct s as [sg | sg | | sg m e]; try discriminate.
  - destruct sg; [reflexivity | discriminate].
  - destruct sg; [| discriminate].
    assert (He : (-52 <= e)%Z).
    { destruct (e ?= -52)%Z eqn:Ec; try discriminate.
      - apply Z.compare_eq in Ec. lia.
      - apply Z.compare_gt_iff in Ec. lia. }
    pose proof (bounded_normal m e Hv He) as Hm.
    apply binary_normalize_nonpos.
    replace (Z.min (-52) e) with (-52)%Z by lia.
    pose proof (shl_align_grows m e (-52)) as Hg.
    change (fst (shl_align 4503599627370496 (-52) (-52)))
      with 4503599627370496%positive.
    change (2 ^ 52)%Z with 4503599627370496%Z in Hm.
    unfold cond_Zopp. lia.
Qed.

Lemma zero_or_signed_not_positive (x : spec_float) :
  zero_or_signed true x ->
  SFeqb x x = true /\ SFltb (S754_zero false) x = false.
Proof.
  destruct x as [s | s | | s m e]; cbn [zero_or_signed]; intros Hx.
  - split; reflexivity.
  - subst s. split; reflexivity.
  - contradiction.
  - subst s. unfold SFeqb, SFltb, SFcompare.
    rewrite Z.compare_refl, Pos.compare_cont_refl. split; reflexivity.
Qed.

(** On floats, [1 + sinr] with [sinr <= -1] is outside the domain of
    [math.log2], whatever the C library's [log2] is. *)
Lemma float_log2_one_plus (libm_log2 : float -> float) (sinr : float) :
  PrimFloat.leb sinr (-1)%float = true ->
  float_log2 libm_log2 (PrimFloat.add 1%float sinr) = Raise ValueError.
Proof.
  intros Hle. rewrite FloatAxioms.leb_spec in Hle.
  pose proof (SF64add_one_le_minus_one
                (Prim2SF sinr) (Prim2SF_valid sinr) Hle) as Hs.
  rewrite <- FloatAxioms.add_spec in Hs.
  apply zero_or_signed_not_positive in Hs as [Heq Hlt].
  unfold float_log2, is_nan.
  rewrite FloatAxioms.eqb_spec, Heq, FloatAxioms.ltb_spec.
  change (Prim2SF 0%float) with (S754_zero false).
  rewrite Hlt. reflexivity.
Qed.

(** ** Contract violations *)

(** C8. A call that breaks the domain contract does not return a number.
    A zero divisor (computing power [F], [f], [f_id], rate [R_i_bs],
    [R_bs_j], noise [sigma_sq], or noise plus interference) makes the call
    raise [ZeroDivisionError] at the division, at every number type, in
    particular on reals and on floats with divisor [0.0] or [-0.0]; a
    [sinr <= -1] makes [calculate_transmission_rate] raise [ValueError]
    at the logarithm, for every real [sinr] and for every float [sinr]
    ([-inf] included), whatever the C library's [log2] is. *)
Theorem domain_violations_raise :
  (forall (T : Type) (N : PyNum T) (z : T),
      is_zero z = true ->
      forall a b c e : T,
        calculate_task_execution_time_on_local a b z c = Raise ZeroDivisionError
        /\ calculate_full_task_execution_time_on_local a b z
           = Raise ZeroDivisionError
        /\ calculate_partial_task_execution_time_on_mec a b c e z
           = Raise ZeroDivisionError
        /\ calculate_partial_task_execution_time_on_id a b c e z
           = Raise ZeroDivisionError
        /\ calculate_sinr_bs_to_id a b z = Raise ZeroDivisionError
        /\ calculate_eu_to_bs_transmission_time a b z = Raise ZeroDivisionError
        /\ calculate_bs_to_id_transmission_time a b c z
           = Raise ZeroDivisionError)
  /\ (forall (T : Type) (N : PyNum T) (P G sigma_sq interference : T),
         is_zero (add sigma_sq interference) = true ->
         calculate_sinr_eu_to_bs P G sigma_sq interference
         = Raise ZeroDivisionError)
  /\ (forall x d : R,
         calculate_eu_to_bs_transmission_time x d 0 = Raise ZeroDivisionError)
  /\ (forall x d : float,
         calculate_eu_to_bs_transmission_time x d 0%float
         = Raise ZeroDivisionError
         /\ calculate_eu_to_bs_transmission_time x d (-0)%float
            = Raise ZeroDivisionError)
  /\ (forall B sinr : R,
         sinr <= -1 -> calculate_transmission_rate B sinr = Raise ValueError)
  /\ (forall (libm_log2 : float -> float) (B sinr : float),
         PrimFloat.leb sinr (-1)%float = true ->
         @calculate_transmission_rate
           float PyNum_float (PyLog2_float libm_log2) B sinr
         = Raise ValueError).
Proof.
  split; [| split; [| split; [| split; [| split]]]].
  - intros T N z Hz a b c e. unfold_utils.
    repeat split; now apply div_zero_divisor.
  - intros T N P G s i Hz. unfold_utils. now apply div_zero_divisor.
  - intros x d. unfold_utils. apply div_R_zero.
  - intros x d. split; unfold_utils; now apply div_zero_divisor.
  - intros B sinr Hs. unfold_utils.
    change (@add R _ (@one R _) sinr) with (1 + sinr).
    rewrite log2_R_nonpos by lra. reflexivity.
  - intros libm_log2 B sinr Hs. unfold_utils.
    change (@log2 float (PyLog2_float libm_log2)) with (float_log2 libm_log2).
    change (@add float _ (@one float _) sinr) with (PrimFloat.add 1%float sinr).
    now rewrite float_log2_one_plus.
Qed.

Lemma domain_violations_raise_witness :
  calculate_task_execution_time_on_local 1000%float 8%float 0%float 0.5%float
  = Raise ZeroDivisionError
  /\ calculate_sinr_eu_to_bs 1%float 1%float 1%float (-1)%float
     = Raise ZeroDivisionError
  /\ calculate_transmission_rate 1e6 (-2) = Raise ValueError
  /\ @calculate_transmission_rate
       float PyNum_float (PyLog2_float (fun v => v)) 1e6%float neg_infinity
     = Raise ValueError.
Proof.
  split; [| split; [| split]].
  - refine (proj1 (proj1 domain_violations_raise float PyNum_float 0%float
                     _ 1000%float 8%float 0.5%float 0%float)).
    reflexivity.
  - refine (proj1 (proj2 domain_violations_raise) float PyNum_float
              1%float 1%float 1%float (-1)%float _).
    reflexivity.
  - apply (proj1 (proj2 (proj2 (proj2 (proj2 domain_violations_raise)))));
      lra.
  - apply (proj2 (proj2 (proj2 (proj2 (proj2 domain_violations_raise)))));
      reflexivity.
Defined.

(** ** Energy *)

(** C9. [calculate_eu_transmission_energy] and
    [calculate_bs_transmission_energy] are the same function: on every
    triple of arguments, at every number type, both return
    [power * time * theta_tran]; on reals that is the real product. *)
Theorem transmission_energy_eu_bs_equal :
  (forall (T : Type) (N : PyNum T) (power time theta_tran : T),
      calculate_eu_transmission_energy power time theta_tran
      = calculate_bs_transmission_energy power time theta_tran
      /\ calculate_eu_transmission_energy power time theta_tran
         = mul (mul power time) theta_tran)
  /\ (forall power time theta_tran : R,
         calculate_eu_transmission_energy power time theta_tran
         = power * time * theta_tran
         /\ calculate_bs_transmission_energy power time theta_tran
            = power * time * theta_tran).
Proof.
  split.
  - intros T N power time theta_tran. split; reflexivity.
  - intros power time theta_tran. split; reflexivity.
Qed.

(** C10, as worded, fails on floats: the two shares are rounded
    separately, so their sum can miss the rounded product and can change
    with [omega].  At [C = 3] and [x = d = theta_exe = 1] the product
    [C * x * d * theta_exe] is [3.0]; the sum of the shares is
    [3.0000000000000004] (the float after [3.0]) at [omega = 0.2], and
    [3.0] at [omega = 0.5]. *)
Lemma energy_shares_differ_on_floats :
  PrimFloat.mul (PrimFloat.mul (PrimFloat.mul 3%float 1%float) 1%float) 1%float
  = 3%float
  /\ PrimFloat.add
       (calculate_partial_task_execution_energy_consumption_on_mec
          1%float 1%float 0.2%float 3%float 1%float)
       (calculate_partial_task_execution_energy_consumption_on_ID
          3%float 0.2%float 1%float 1%float 1%float)
     = next_up 3%float
  /\ PrimFloat.eqb
       (PrimFloat.add
          (calculate_partial_task_execution_energy_consumption_on_mec
             1%float 1%float 0.2%float 3%float 1%float)
          (calculate_partial_task_execution_energy_consumption_on_ID
             3%float 0.2%float 1%float 1%float 1%float))
       (PrimFloat.mul
          (PrimFloat.mul (PrimFloat.mul 3%float 1%float) 1%float) 1%float)
     = false
  /\ PrimFloat.eqb
       (PrimFloat.add
          (calculate_partial_task_execution_energy_consumption_on_mec
             1%float 1%float 0.2%float 3%float 1%float)
          (calculate_partial_task_execution_energy_consumption_on_ID
             3%float 0.2%float 1%float 1%float 1%float))
       (PrimFloat.add
          (calculate_partial_task_execution_energy_consumption_on_mec
             1%float 1%float 0.5%float 3%float 1%float)
          (calculate_partial_task_execution_energy_consumption_on_ID
             3%float 0.5%float 1%float 1%float 1%float))
     = false.
Proof.
  repeat split.
Qed.

(** C10, amended.  In exact arithmetic the MEC and ID energy shares of
    the offloaded slice add up to [C * x * d * theta_exe] for every [C],
    [d], [x], [theta_exe] and every [omega], so the sum does not depend on
    [omega].  On floats the equality holds up to rounding only: at
    [C = 3], [x = d = theta_exe = 1] the sum is the float after [3.0] at
    [omega = 0.2] and [3.0] at [omega = 0.5]. *)
Theorem energy_shares_conserved :
  (forall C d x theta_exe omega : R,
      calculate_partial_task_execution_energy_consumption_on_mec
        x d omega C theta_exe
      + calculate_partial_task_execution_energy_consumption_on_ID
          C omega x d theta_exe
      = C * x * d * theta_exe)
  /\ (forall C d x theta_exe omega omega' : R,
         calculate_partial_task_execution_energy_consumption_on_mec
           x d omega C theta_exe
         + calculate_partial_task_execution_energy_consumption_on_ID
             C omega x d theta_exe
         = calculate_partial_task_execution_energy_consumption_on_mec
             x d omega' C theta_exe
           + calculate_partial_task_execution_energy_consumption_on_ID
               C omega' x d theta_exe)
  /\ PrimFloat.add
       (calculate_partial_task_execution_energy_consumption_on_mec
          1%float 1%float 0.2%float 3%float 1%float)
       (calculate_partial_task_execution_energy_consumption_on_ID
          3%float 0.2%float 1%float 1%float 1%float)
     = next_up 3%float
  /\ PrimFloat.add
       (calculate_partial_task_execution_energy_consumption_on_mec
          1%float 1%float 0.5%float 3%float 1%float)
       (calculate_partial_task_execution_energy_consumption_on_ID
          3%float 0.5%float 1%float 1%float 1%float)
     = 3%float.
Proof.
  split; [| split; [| split]].
  - intros C d x theta_exe omega. unfold_utils. cbn. ring.
  - intros C d x theta_exe omega omega'. unfold_utils. cbn. ring.
  - reflexivity.
  - reflexivity.
Qed.

(** * Negative results on floats *)

(** The sign of a result is the same on floats as on reals. *)

Local Open Scope float_scope.

(** A ratio above one gives a negative time on floats as on reals. *)
Remark negative_time_example_binary64 :
  calculate_task_execution_time_on_local 1 1 1 2 = Ok (-1)
  /\ calculate_partial_task_execution_time_on_mec 1 1 2 1 1 = Ok (-1).
Proof.
  split; reflexivity.
Qed.

(** * Further properties *)

(** How the formulas behave as their arguments move, how they compose,
    and what they do at the edges of their domain. *)

Local Open Scope R_scope.

(** ** Values at [R] *)

Lemma local_time_R (C d F x : R) :
  F <> 0 ->
  calculate_task_execution_time_on_local C d F x = Ok ((1 - x) * C * d / F).
Proof.
  intros HF. unfold_utils. cbn. now apply div_R_nonzero.
Qed.

Lemma mec_time_R (x d omega C f : R) :
  f <> 0 ->
  calculate_partial_task_execution_time_on_mec x d omega C f
  = Ok (C * (1 - omega) * (x * d) / f).
Proof.
  intros Hf. unfold_utils. cbn. now apply div_R_nonzero.
Qed.

Lemma id_time_R (C omega x d f_id : R) :
  f_id <> 0 ->
  calculate_partial_task_execution_time_on_id C omega x d f_id
  = Ok (C * omega * (x * d) / f_id).
Proof.
  intros Hf. unfold_utils. cbn. now apply div_R_nonzero.
Qed.

Lemma eu_to_bs_time_R (x d R_i_bs : R) :
  R_i_bs <> 0 ->
  calculate_eu_to_bs_transmission_time x d R_i_bs = Ok (x * d / R_i_bs).
Proof.
  intros HR. unfold_utils. cbn. now apply div_R_nonzero.
Qed.

Lemma bs_to_id_time_R (omega x d R_bs_j : R) :
  R_bs_j <> 0 ->
  calculate_bs_to_id_transmission_time omega x d R_bs_j
  = Ok (omega * x * d / R_bs_j).
Proof.
  intros HR. unfold_utils. cbn. now apply div_R_nonzero.
Qed.

Lemma sinr_eu_to_bs_R (P G sigma_sq interference : R) :
  sigma_sq + interference <> 0 ->
  calculate_sinr_eu_to_bs P G sigma_sq interference
  = Ok (P * G / (sigma_sq + interference)).
Proof.
  intros Hs. unfold_utils. cbn. now apply div_R_nonzero.
Qed.

Lemma sinr_bs_to_id_R (P G sigma_sq : R) :
  sigma_sq <> 0 ->
  calculate_sinr_bs_to_id P G sigma_sq = Ok (P * G / sigma_sq).
Proof.
  intros Hs. unfold_utils. cbn. now apply div_R_nonzero.
Qed.

Lemma transmission_rate_R (B sinr : R) :
  -1 < sinr ->
  calculate_transmission_rate B sinr = Ok (B * (ln (1 + sinr) / ln 2)).
Proof.
  intros Hs. unfold_utils.
  change (@add R _ (@one R _) sinr) with (1 + sinr).
  rewrite log2_R_pos by lra. reflexivity.
Qed.

Lemma Rdiv_le_compat_pos (a b c : R) : 0 < c -> a <= b -> a / c <= b / c.
Proof.
  intros Hc Hab. unfold Rdiv. apply Rmult_le_compat_r; [| assumption].
  left. now apply Rinv_0_lt_compat.
Qed.

Lemma Rmax_le_compat (a a' b b' : R) :
  a <= a' -> b <= b' -> Rmax a b <= Rmax a' b'.
Proof.
  intros Ha Hb. apply Rmax_lub.
  - pose proof (Rmax_l a' b'). lra.
  - pose proof (Rmax_r a' b'). lra.
Qed.

(** ** Monotonicity *)

(** X1. Offloading more never costs the local device more: for
    [0 <= C], [0 <= d], [0 < F], [0 <= theta_exe] and [x1 <= x2], the
    local time and the local energy at [x2] are at most those at [x1]. *)
Theorem local_cost_nonincreasing_in_ratio (C d F theta_exe x1 x2 : R) :
  0 <= C -> 0 <= d -> 0 < F -> 0 <= theta_exe -> x1 <= x2 ->
  result_le (calculate_task_execution_time_on_local C d F x2)
            (calculate_task_execution_time_on_local C d F x1)
  /\ calculate_task_execution_energy_consumption_on_local C d theta_exe x2
     <= calculate_task_execution_energy_consumption_on_local C d theta_exe x1.
Proof.
  intros HC Hd HF Ht Hx.
  assert (HCd : 0 <= C * d) by now apply Rmult_le_pos.
  split.
  - rewrite !local_time_R by lra. cbn.
    apply Rdiv_le_compat_pos; [assumption |].
    rewrite !Rmult_assoc. apply Rmult_le_compat_r; [assumption | lra].
  - unfold_utils. cbn.
    apply Rmult_le_compat_r; [assumption |].
    apply Rmult_le_compat_l; [assumption | lra].
Qed.

Lemma local_cost_nonincreasing_in_ratio_witness :
  result_le (calculate_task_execution_time_on_local 1000 8 4 (3 / 4))
            (calculate_task_execution_time_on_local 1000 8 4 (1 / 4))
  /\ calculate_task_execution_energy_consumption_on_local 1000 8 3 (3 / 4)
     <= calculate_task_execution_energy_consumption_on_local 1000 8 3 (1 / 4).
Proof.
  apply (@local_cost_nonincreasing_in_ratio 1000 8 4 3 (1 / 4) (3 / 4)); lra.
Defined.

(** X2. Relaying more to the idle device moves work from the MEC server
    to the idle device: for non-negative [C], [x], [d], [theta_exe],
    positive [f] and [f_id], and [omega1 <= omega2], the MEC time and
    energy at [omega2] are at most those at [omega1], and the ID time and
    energy at [omega1] are at most those at [omega2]. *)
Theorem edge_cost_monotone_in_relay_ratio
    (C x d f f_id theta_exe omega1 omega2 : R) :
  0 <= C -> 0 <= x -> 0 <= d -> 0 < f -> 0 < f_id -> 0 <= theta_exe ->
  omega1 <= omega2 ->
  result_le (calculate_partial_task_execution_time_on_mec x d omega2 C f)
            (calculate_partial_task_execution_time_on_mec x d omega1 C f)
  /\ calculate_partial_task_execution_energy_consumption_on_mec
       x d omega2 C theta_exe
     <= calculate_partial_task_execution_energy_consumption_on_mec
          x d omega1 C theta_exe
  /\ result_le (calculate_partial_task_execution_time_on_id C omega1 x d f_id)
               (calculate_partial_task_execution_time_on_id C omega2 x d f_id)
  /\ calculate_partial_task_execution_energy_consumption_on_ID
       C omega1 x d theta_exe
     <= calculate_partial_task_execution_energy_consumption_on_ID
          C omega2 x d theta_exe.
Proof.
  intros HC Hx Hd Hf Hfid Ht Hw.
  assert (HI : 0 <= x * d) by now apply Rmult_le_pos.
  assert (Hm : C * (1 - omega2) * (x * d) <= C * (1 - omega1) * (x * d)).
  { apply Rmult_le_compat_r; [assumption |].
    apply Rmult_le_compat_l; [assumption | lra]. }
  assert (Hi : C * omega1 * (x * d) <= C * omega2 * (x * d)).
  { apply Rmult_le_compat_r; [assumption |].
    apply Rmult_le_compat_l; [assumption | lra]. }
  repeat split.
  - rewrite !mec_time_R by lra. cbn. now apply Rdiv_le_compat_pos.
  - unfold_utils. cbn. now apply Rmult_le_compat_r.
  - rewrite !id_time_R by lra. cbn. now apply Rdiv_le_compat_pos.
  - unfold_utils. cbn. now apply Rmult_le_compat_r.
Qed.

Lemma edge_cost_monotone_in_relay_ratio_witness :
  result_le
    (calculate_partial_task_execution_time_on_mec (1 / 2) 8 (3 / 4) 1000 5)
    (calculate_partial_task_execution_time_on_mec (1 / 2) 8 (1 / 4) 1000 5)
  /\ calculate_partial_task_execution_energy_consumption_on_mec
       (1 / 2) 8 (3 / 4) 1000 3
     <= calculate_partial_task_execution_energy_consumption_on_mec
          (1 / 2) 8 (1 / 4) 1000 3
  /\ result_le
       (calculate_partial_task_execution_time_on_id 1000 (1 / 4) (1 / 2) 8 6)
       (calculate_partial_task_execution_time_on_id 1000 (3 / 4) (1 / 2) 8 6)
  /\ calculate_partial_task_execution_energy_consumption_on_ID
       1000 (1 / 4) (1 / 2) 8 3
     <= calculate_partial_task_execution_energy_consumption_on_ID
          1000 (3 / 4) (1 / 2) 8 3.
Proof.
  apply (@edge_cost_monotone_in_relay_ratio
           1000 (1 / 2) 8 5 6 3 (1 / 4) (3 / 4)); lra.
Defined.

(** X3. The offloading delay is non-decreasing in each of its four
    inputs, and the total task time in each of its two. *)
Theorem delay_and_total_time_monotone
    (t1 m1 i1 b1 t2 m2 i2 b2 l1 o1 l2 o2 : R) :
  t1 <= t2 -> m1 <= m2 -> i1 <= i2 -> b1 <= b2 -> l1 <= l2 -> o1 <= o2 ->
  calculate_offloading_delay t1 m1 i1 b1 <= calculate_offloading_delay t2 m2 i2 b2
  /\ calculate_total_task_time l1 o1 <= calculate_total_task_time l2 o2.
Proof.
  intros Ht Hm Hi Hb Hl Ho. unfold_utils. cbn. rewrite !max_R_Rmax.
  split.
  - apply Rplus_le_compat; [assumption |].
    apply Rmax_le_compat; lra.
  - now apply Rmax_le_compat.
Qed.

Lemma delay_and_total_time_monotone_witness :
  calculate_offloading_delay 1 2 3 4 <= calculate_offloading_delay 2 3 4 5
  /\ calculate_total_task_time 1 7 <= calculate_total_task_time 2 8.
Proof.
  apply (@delay_and_total_time_monotone 1 2 3 4 2 3 4 5 1 7 2 8); lra.
Defined.

(** ** How the formulas compose *)

(** X4. Splitting a task loses no energy: the local energy of the
    retained part plus the MEC and ID energies of the offloaded part is
    the energy of running the whole task locally, whatever [x] and
    [omega] are. *)
Theorem three_tier_energy_is_full_local_energy (C d theta_exe x omega : R) :
  calculate_task_execution_energy_consumption_on_local C d theta_exe x
  + calculate_partial_task_execution_energy_consumption_on_mec
      x d omega C theta_exe
  + calculate_partial_task_execution_energy_consumption_on_ID
      C omega x d theta_exe
  = calculate_full_task_execution_energy_consumption_on_local C d theta_exe.
Proof.
  unfold_utils. cbn. ring.
Qed.

(** X5. Each execution energy is the matching execution time multiplied
    by the computing power that was divided out and by [theta_exe]: for
    non-zero [F], [f] and [f_id] the three time calls return some [t_loc],
    [t_mec], [t_id], and the energies are [t_loc * F * theta_exe],
    [t_mec * f * theta_exe] and [t_id * f_id * theta_exe]. *)
Theorem energy_is_time_times_power (C d x omega F f f_id theta_exe : R) :
  F <> 0 -> f <> 0 -> f_id <> 0 ->
  exists t_loc t_mec t_id : R,
    calculate_task_execution_time_on_local C d F x = Ok t_loc
    /\ calculate_partial_task_execution_time_on_mec x d omega C f = Ok t_mec
    /\ calculate_partial_task_execution_time_on_id C omega x d f_id = Ok t_id
    /\ calculate_task_execution_energy_consumption_on_local C d theta_exe x
       = t_loc * F * theta_exe
    /\ calculate_partial_task_execution_energy_consumption_on_mec
         x d omega C theta_exe
       = t_mec * f * theta_exe
    /\ calculate_partial_task_execution_energy_consumption_on_ID
         C omega x d theta_exe
       = t_id * f_id * theta_exe.
Proof.
  intros HF Hf Hfid.
  exists ((1 - x) * C * d / F), (C * (1 - omega) * (x * d) / f),
    (C * omega * (x * d) / f_id).
  rewrite local_time_R, mec_time_R, id_time_R by assumption.
  repeat split; unfold_utils; cbn; field; assumption.
Qed.

Lemma energy_is_time_times_power_witness :
  exists t_loc t_mec t_id : R,
    calculate_task_execution_time_on_local 1000 8 4 (1 / 2) = Ok t_loc
    /\ calculate_partial_task_execution_time_on_mec (1 / 2) 8 (1 / 4) 1000 5
       = Ok t_mec
    /\ calculate_partial_task_execution_time_on_id 1000 (1 / 4) (1 / 2) 8 6
       = Ok t_id
    /\ calculate_task_execution_energy_consumption_on_local 1000 8 3 (1 / 2)
       = t_loc * 4 * 3
    /\ calculate_partial_task_execution_energy_consumption_on_mec
         (1 / 2) 8 (1 / 4) 1000 3
       = t_mec * 5 * 3
    /\ calculate_partial_task_execution_energy_consumption_on_ID
         1000 (1 / 4) (1 / 2) 8 3
       = t_id * 6 * 3.
Proof.
  apply (@energy_is_time_times_power 1000 8 (1 / 2) (1 / 4) 4 5 6 3); lra.
Defined.

(** X6. At equal computing power the MEC and ID times add up to the time
    of the whole offloaded slice, [C * x * d / f], whatever [omega] is. *)
Theorem edge_time_shares_at_equal_power (C x d omega f : R) :
  f <> 0 ->
  exists t_mec t_id : R,
    calculate_partial_task_execution_time_on_mec x d omega C f = Ok t_mec
    /\ calculate_partial_task_execution_time_on_id C omega x d f = Ok t_id
    /\ t_mec + t_id = C * x * d / f.
Proof.
  intros Hf.
  exists (C * (1 - omega) * (x * d) / f), (C * omega * (x * d) / f).
  rewrite mec_time_R, id_time_R by assumption.
  repeat split. field. assumption.
Qed.

Lemma edge_time_shares_at_equal_power_witness :
  exists t_mec t_id : R,
    calculate_partial_task_execution_time_on_mec (1 / 2) 8 (1 / 4) 1000 5
    = Ok t_mec
    /\ calculate_partial_task_execution_time_on_id 1000 (1 / 4) (1 / 2) 8 5
       = Ok t_id
    /\ t_mec + t_id = 1000 * (1 / 2) * 8 / 5.
Proof.
  apply (@edge_time_shares_at_equal_power 1000 (1 / 2) 8 (1 / 4) 5); lra.
Defined.

(** X7. At the same rate the BS->ID transmission time is the EU->BS
    transmission time scaled by [omega]. *)
Theorem bs_to_id_time_is_scaled_eu_to_bs_time (omega x d rate : R) :
  rate <> 0 ->
  exists t : R,
    calculate_eu_to_bs_transmission_time x d rate = Ok t
    /\ calculate_bs_to_id_transmission_time omega x d rate = Ok (omega * t).
Proof.
  intros HR. exists (x * d / rate).
  rewrite eu_to_bs_time_R, bs_to_id_time_R by assumption.
  split; [reflexivity |]. f_equal. field. assumption.
Qed.

Lemma bs_to_id_time_is_scaled_eu_to_bs_time_witness :
  exists t : R,
    calculate_eu_to_bs_transmission_time (1 / 2) 8 7 = Ok t
    /\ calculate_bs_to_id_transmission_time (1 / 4) (1 / 2) 8 7
       = Ok (1 / 4 * t).
Proof.
  apply (@bs_to_id_time_is_scaled_eu_to_bs_time (1 / 4) (1 / 2) 8 7); lra.
Defined.

(** X8. The offloading delay is the length of the slower of its two
    branches: it is at least [t_tran_i_bs + t_mec] and at least
    [t_tran_i_bs + t_id + t_tran_bs_j], and it equals one of the two; the
    total task time is at least the local time and at least the delay,
    and equals one of the two. *)
Theorem delay_is_the_slower_branch
    (t_tran_i_bs t_mec t_id t_tran_bs_j t_local : R) :
  let t_off :=
    calculate_offloading_delay t_tran_i_bs t_mec t_id t_tran_bs_j in
  let t_tot := calculate_total_task_time t_local t_off in
  t_tran_i_bs + t_mec <= t_off
  /\ t_tran_i_bs + t_id + t_tran_bs_j <= t_off
  /\ (t_off = t_tran_i_bs + t_mec
      \/ t_off = t_tran_i_bs + t_id + t_tran_bs_j)
  /\ t_local <= t_tot
  /\ t_off <= t_tot
  /\ (t_tot = t_local \/ t_tot = t_off).
Proof.
  intros t_off t_tot. subst t_tot t_off. unfold_utils. cbn.
  rewrite !max_R_Rmax. unfold Rmax.
  destruct (Rle_dec t_mec (t_id + t_tran_bs_j)) as [Hb | Hb];
    match goal with
    | |- context [Rle_dec ?a ?b] => destruct (Rle_dec a b) as [Hl | Hl]
    end;
    repeat split; try lra; solve [left; lra | right; lra].
Qed.

(** ** Boundary ratios *)

(** X9. At the ends of the ratio ranges a tier drops out.  With nothing
    offloaded ([x = 0]) the MEC, ID and both transmission times and the
    MEC and ID energies are zero; with everything offloaded ([x = 1]) the
    local time and energy are zero; with nothing relayed ([omega = 0])
    the ID time, ID energy and BS->ID transmission time are zero and the
    MEC server runs the whole slice; with everything relayed
    ([omega = 1]) the MEC time and energy are zero and the idle device
    runs the whole slice.  All divisors are non-zero. *)
Theorem boundary_ratios
    (C d x omega F f f_id R_i_bs R_bs_j theta_exe : R) :
  F <> 0 -> f <> 0 -> f_id <> 0 -> R_i_bs <> 0 -> R_bs_j <> 0 ->
  (calculate_partial_task_execution_time_on_mec 0 d omega C f = Ok 0
   /\ calculate_partial_task_execution_time_on_id C omega 0 d f_id = Ok 0
   /\ calculate_eu_to_bs_transmission_time 0 d R_i_bs = Ok 0
   /\ calculate_bs_to_id_transmission_time omega 0 d R_bs_j = Ok 0
   /\ calculate_partial_task_execution_energy_consumption_on_mec
        0 d omega C theta_exe = 0
   /\ calculate_partial_task_execution_energy_consumption_on_ID
        C omega 0 d theta_exe = 0)
  /\ (calculate_task_execution_time_on_local C d F 1 = Ok 0
      /\ calculate_task_execution_energy_consumption_on_local C d theta_exe 1
         = 0)
  /\ (calculate_partial_task_execution_time_on_id C 0 x d f_id = Ok 0
      /\ calculate_partial_task_execution_energy_consumption_on_ID
           C 0 x d theta_exe = 0
      /\ calculate_bs_to_id_transmission_time 0 x d R_bs_j = Ok 0
      /\ calculate_partial_task_execution_time_on_mec x d 0 C f
         = Ok (C * x * d / f))
  /\ (calculate_partial_task_execution_time_on_mec x d 1 C f = Ok 0
      /\ calculate_partial_task_execution_energy_consumption_on_mec
           x d 1 C theta_exe = 0
      /\ calculate_partial_task_execution_time_on_id C 1 x d f_id
         = Ok (C * x * d / f_id)).
Proof.
  intros HF Hf Hfid HR1 HR2.
  rewrite !mec_time_R, !id_time_R, !eu_to_bs_time_R, !bs_to_id_time_R,
    !local_time_R by assumption.
  repeat split; try (f_equal; field; assumption);
    unfold_utils; cbn; ring.
Qed.

Lemma boundary_ratios_witness :
  calculate_partial_task_execution_time_on_mec 0 8 (1 / 4) 1000 5 = Ok 0
  /\ calculate_task_execution_time_on_local 1000 8 4 1 = Ok 0
  /\ calculate_partial_task_execution_time_on_mec (1 / 2) 8 0 1000 5
     = Ok (1000 * (1 / 2) * 8 / 5)
  /\ calculate_partial_task_execution_time_on_id 1000 1 (1 / 2) 8 6
     = Ok (1000 * (1 / 2) * 8 / 6).
Proof.
  destruct (@boundary_ratios 1000 8 (1 / 2) (1 / 4) 4 5 6 7 9 3)
    as (H0 & H1 & H2 & H3); [lra | lra | lra | lra | lra |].
  repeat split.
  - apply H0.
  - apply H1.
  - apply H2.
  - apply H3.
Defined.

(** ** SINR and rate as their arguments move *)

(** X10. More interference never raises the SINR, and the interference-
    free BS->ID formula bounds the EU->BS one from above: for [0 <= P],
    [0 <= G], [0 < sigma_sq] and [0 <= i1 <= i2], the SINR at [i2] is at
    most the SINR at [i1], which is at most
    [calculate_sinr_bs_to_id P G sigma_sq]. *)
Theorem sinr_nonincreasing_in_interference (P G sigma_sq i1 i2 : R) :
  0 <= P -> 0 <= G -> 0 < sigma_sq -> 0 <= i1 -> i1 <= i2 ->
  result_le (calculate_sinr_eu_to_bs P G sigma_sq i2)
            (calculate_sinr_eu_to_bs P G sigma_sq i1)
  /\ result_le (calculate_sinr_eu_to_bs P G sigma_sq i1)
               (calculate_sinr_bs_to_id P G sigma_sq).
Proof.
  intros HP HG Hs Hi1 Hi12.
  assert (HPG : 0 <= P * G) by now apply Rmult_le_pos.
  rewrite !sinr_eu_to_bs_R, sinr_bs_to_id_R by lra. cbn.
  unfold Rdiv. split.
  - apply Rmult_le_compat_l; [assumption |].
    apply Rinv_le_contravar; lra.
  - apply Rmult_le_compat_l; [assumption |].
    apply Rinv_le_contravar; lra.
Qed.

Lemma sinr_nonincreasing_in_interference_witness :
  result_le (calculate_sinr_eu_to_bs 2 3 4 5) (calculate_sinr_eu_to_bs 2 3 4 1)
  /\ result_le (calculate_sinr_eu_to_bs 2 3 4 1) (calculate_sinr_bs_to_id 2 3 4).
Proof.
  apply (@sinr_nonincreasing_in_interference 2 3 4 1 5); lra.
Defined.

(** X11. For a positive bandwidth the rate is strictly increasing in the
    SINR on the whole domain of the logarithm ([sinr > -1]); so it is
    negative for [-1 < sinr < 0], where the call raises nothing. *)
Theorem transmission_rate_increasing (B : R) :
  0 < B ->
  (forall s1 s2 : R,
      -1 < s1 -> s1 < s2 ->
      result_lt (calculate_transmission_rate B s1)
                (calculate_transmission_rate B s2))
  /\ (forall s : R,
         -1 < s < 0 -> result_lt (calculate_transmission_rate B s) (Ok 0)).
Proof.
  intros HB.
  assert (G : forall s1 s2 : R, -1 < s1 -> s1 < s2 ->
             B * (ln (1 + s1) / ln 2) < B * (ln (1 + s2) / ln 2)).
  { intros s1 s2 H1 H12.
    apply Rmult_lt_compat_l; [assumption |].
    unfold Rdiv. apply Rmult_lt_compat_r.
    - apply Rinv_0_lt_compat. exact ln_2_pos.
    - apply ln_increasing; lra. }
  split.
  - intros s1 s2 H1 H12.
    rewrite !transmission_rate_R by lra. cbn. now apply G.
  - intros s [H1 H0].
    rewrite transmission_rate_R by lra. cbn.
    pose proof (G s 0 H1 H0) as Hlt.
    replace (1 + 0) with 1 in Hlt by ring. rewrite ln_1 in Hlt.
    unfold Rdiv in Hlt at 2. lra.
Qed.

Lemma transmission_rate_increasing_witness :
  (forall s1 s2 : R,
      -1 < s1 -> s1 < s2 ->
      result_lt (calculate_transmission_rate 1e6 s1)
                (calculate_transmission_rate 1e6 s2))
  /\ (forall s : R,
         -1 < s < 0 -> result_lt (calculate_transmission_rate 1e6 s) (Ok 0)).
Proof.
  apply (@transmission_rate_increasing 1e6); lra.
Defined.

(** X12. When [1 + sinr] is a power of two the rate is an exact multiple
    of the bandwidth: [calculate_transmission_rate B (2^n - 1)] returns
    [B * n]; in particular the rate at [sinr = 1] is [B]. *)
Theorem transmission_rate_at_powers_of_two (B : R) (n : nat) :
  calculate_transmission_rate B (2 ^ n - 1) = Ok (B * INR n)
  /\ calculate_transmission_rate B 1 = Ok B.
Proof.
  assert (G : forall k : nat,
             calculate_transmission_rate B (2 ^ k - 1) = Ok (B * INR k)).
  { intros k.
    assert (Hp : 0 < 2 ^ k) by (apply pow_lt; lra).
    rewrite transmission_rate_R by lra.
    replace (1 + (2 ^ k - 1)) with (2 ^ k) by ring.
    rewrite ln_pow by lra. f_equal. field.
    pose proof ln_2_pos. lra. }
  split; [apply G |].
  specialize (G 1%nat).
  replace (2 ^ 1 - 1) with 1 in G by (simpl; ring).
  rewrite G. f_equal. simpl. ring.
Qed.

(** ** Divisors that are not rejected *)

(** X13. Only a zero divisor is refused.  A negative computing power or
    rate is accepted and gives a negative time: for [0 < C], [0 < d],
    [x < 1] and [F < 0] the local time is negative, and for [0 < x],
    [0 < d] and [R_i_bs < 0] the EU->BS transmission time is negative. *)
Theorem negative_divisor_gives_negative_time (C d x F R_i_bs : R) :
  0 < C -> 0 < d -> 0 < x < 1 -> F < 0 -> R_i_bs < 0 ->
  result_lt (calculate_task_execution_time_on_local C d F x) (Ok 0)
  /\ result_lt (calculate_eu_to_bs_transmission_time x d R_i_bs) (Ok 0).
Proof.
  intros HC Hd [Hx0 Hx1] HF HR.
  rewrite local_time_R, eu_to_bs_time_R by lra. cbn.
  assert (Hn1 : 0 < (1 - x) * C * d).
  { repeat apply Rmult_lt_0_compat; lra. }
  assert (Hn2 : 0 < x * d) by (apply Rmult_lt_0_compat; lra).
  assert (Hi1 : / F < 0) by now apply Rinv_lt_0_compat.
  assert (Hi2 : / R_i_bs < 0) by now apply Rinv_lt_0_compat.
  unfold Rdiv. split; nra.
Qed.

Lemma negative_divisor_gives_negative_time_witness :
  result_lt (calculate_task_execution_time_on_local 1000 8 (-4) (1 / 2)) (Ok 0)
  /\ result_lt (calculate_eu_to_bs_transmission_time (1 / 2) 8 (-7)) (Ok 0).
Proof.
  apply (@negative_divisor_gives_negative_time 1000 8 (1 / 2) (-4) (-7)); lra.
Defined.

(** ** NaN and signed zero on floats *)

Lemma float_of_spec (x y : float) : Prim2SF x = Prim2SF y -> x = y.
Proof.
  apply Prim2SF_inj.
Qed.

Lemma Prim2SF_nan : Prim2SF nan = S754_nan.
Proof.
  reflexivity.
Qed.

Lemma float_add_nan_r (x : float) : PrimFloat.add x nan = nan.
Proof.
  apply float_of_spec.
  rewrite FloatAxioms.add_spec, Prim2SF_nan. unfold SF64add, SFadd.
  now destruct (Prim2SF x).
Qed.

Lemma float_add_nan_l (x : float) : PrimFloat.add nan x = nan.
Proof.
  apply float_of_spec.
  rewrite FloatAxioms.add_spec, Prim2SF_nan. reflexivity.
Qed.

Lemma float_mul_nan_r (x : float) : PrimFloat.mul x nan = nan.
Proof.
  apply float_of_spec.
  rewrite FloatAxioms.mul_spec, Prim2SF_nan. unfold SF64mul, SFmul.
  now destruct (Prim2SF x).
Qed.

Lemma float_div_nan_r (x : float) : PrimFloat.div x nan = nan.
Proof.
  apply float_of_spec.
  rewrite FloatAxioms.div_spec, Prim2SF_nan. unfold SF64div, SFdiv.
  now destruct (Prim2SF x).
Qed.

Lemma float_ltb_nan_r (x : float) : PrimFloat.ltb x nan = false.
Proof.
  rewrite FloatAxioms.ltb_spec, Prim2SF_nan. unfold SFltb, SFcompare.
  now destruct (Prim2SF x).
Qed.

Lemma float_ltb_nan_l (x : float) : PrimFloat.ltb nan x = false.
Proof.
  rewrite FloatAxioms.ltb_spec, Prim2SF_nan. reflexivity.
Qed.

(** Adding [0.0] changes a float only when it is [-0.0], and then the sum
    is [0.0]. *)
Lemma float_add_zero_r (s : float) :
  (Prim2SF s = S754_zero true /\ PrimFloat.add s 0%float = 0%float)
  \/ PrimFloat.add s 0%float = s.
Proof.
  destruct (Prim2SF s) as [[|] | sg | | sg m e] eqn:E.
  - left. split; [reflexivity |].
    apply float_of_spec. rewrite FloatAxioms.add_spec, E. reflexivity.
  - right. apply float_of_spec. rewrite FloatAxioms.add_spec, E. reflexivity.
  - right. apply float_of_spec. rewrite FloatAxioms.add_spec, E. reflexivity.
  - right. apply float_of_spec. rewrite FloatAxioms.add_spec, E. reflexivity.
  - right. apply float_of_spec. rewrite FloatAxioms.add_spec, E. reflexivity.
Qed.

(** X14. On floats [max] hides a NaN in its second argument and returns
    one in its first.  So a NaN offloading delay is dropped by
    [calculate_total_task_time], which returns the local time, while a
    NaN local time is returned; and in [calculate_offloading_delay] a NaN
    in the ID branch ([t_id] or [t_tran_bs_j]) is dropped, the delay being
    [t_tran_i_bs + t_mec], while a NaN MEC time makes the delay NaN. *)
Theorem nan_in_max_on_floats (a t_tran_i_bs t_mec t_id t_tran_bs_j : float) :
  calculate_total_task_time a nan = a
  /\ calculate_total_task_time nan a = nan
  /\ calculate_offloading_delay t_tran_i_bs t_mec nan t_tran_bs_j
     = PrimFloat.add t_tran_i_bs t_mec
  /\ calculate_offloading_delay t_tran_i_bs t_mec t_id nan
     = PrimFloat.add t_tran_i_bs t_mec
  /\ calculate_offloading_delay t_tran_i_bs nan t_id t_tran_bs_j = nan.
Proof.
  unfold_utils. unfold max. cbn [gt add PyNum_float]. unfold float_gt.
  rewrite float_add_nan_l, float_add_nan_r.
  rewrite !float_ltb_nan_r, !float_ltb_nan_l.
  rewrite float_add_nan_r. repeat split.
Qed.

(** X15. On floats, for every [P], [G] and [sigma_sq] (zeros, infinities
    and NaN included), [calculate_sinr_bs_to_id P G sigma_sq] gives the
    same outcome as [calculate_sinr_eu_to_bs P G sigma_sq 0.0]: adding a
    zero interference is exact, and a [-0.0] noise raises
    [ZeroDivisionError] on both sides. *)
Theorem sinr_bs_to_id_is_eu_to_bs_without_interference_on_floats
    (P G sigma_sq : float) :
  calculate_sinr_bs_to_id P G sigma_sq
  = calculate_sinr_eu_to_bs P G sigma_sq 0%float.
Proof.
  unfold_utils. unfold div. cbn [is_zero add mul truediv PyNum_float].
  destruct (float_add_zero_r sigma_sq) as [[E ->] | ->]; [| reflexivity].
  unfold float_is_zero. rewrite FloatAxioms.eqb_spec, E. reflexivity.
Qed.

(** X16. On floats a NaN is never rejected: a NaN divisor is not a zero
    divisor, so every dividing function returns NaN instead of raising,
    and a NaN SINR goes through [math.log2] and gives a NaN rate, whatever
    the bandwidth and the C library's [log2] are. *)
Theorem nan_is_not_rejected_on_floats
    (a b c e B : float) (libm_log2 : float -> float) :
  calculate_task_execution_time_on_local a b nan c = Ok nan
  /\ calculate_partial_task_execution_time_on_mec a b c e nan = Ok nan
  /\ calculate_partial_task_execution_time_on_id a b c e nan = Ok nan
  /\ calculate_sinr_eu_to_bs a b c nan = Ok nan
  /\ calculate_sinr_bs_to_id a b nan = Ok nan
  /\ calculate_eu_to_bs_transmission_time a b nan = Ok nan
  /\ calculate_bs_to_id_transmission_time a b c nan = Ok nan
  /\ @calculate_transmission_rate float PyNum_float (PyLog2_float libm_log2)
       B nan
     = Ok nan.
Proof.
  unfold_utils. unfold div, bind.
  cbn [is_zero add sub mul truediv one PyNum_float log2 PyLog2_float].
  rewrite !float_add_nan_r.
  change (float_is_zero nan) with false.
  change (float_log2 libm_log2 nan) with (@Ok float nan).
  rewrite !float_div_nan_r, float_mul_nan_r. repeat split.
Qed.

(** ** Exact factors on floats *)

Lemma digits2_pos_iter_xO (m k : positive) :
  Z.pos (digits2_pos (Pos.iter xO m k)) = (Z.pos (digits2_pos m) + Z.pos k)%Z.
Proof.
  induction k as [| k IH] using Pos.peano_ind.
  - cbn [Pos.iter digits2_pos]. lia.
  - rewrite Pos.iter_succ. cbn [digits2_pos]. lia.
Qed.

Lemma shr_52_exact (m : positive) :
  SpecFloat.iter_pos shr_1 52
    (Build_shr_record (Z.pos (Pos.iter xO m 52)) false false)
  = Build_shr_record (Z.pos m) false false.
Proof.
  reflexivity.
Qed.

Lemma binary_round_aux_shifted (s : bool) (m : positive) (e : Z) :
  bounded prec emax m e = true ->
  binary_round_aux prec emax s (Z.pos (Pos.iter xO m 52)) (-52 + e) loc_Exact
  = S754_finite s m e.
Proof.
  intros Hv.
  unfold bounded, canonical_mantissa, fexp, emin in Hv.
  apply andb_prop in Hv as [Hc Hb]. apply Z.eqb_eq in Hc.
  unfold binary_round_aux, shr_fexp.
  replace (fexp prec emax (Zdigits2 (Z.pos (Pos.iter xO m 52)) + (-52 + e))
           - (-52 + e))%Z with 52%Z.
  2:{ unfold Zdigits2, fexp, emin. rewrite digits2_pos_iter_xO. lia. }
  unfold shr at 1. cbv iota.
  change (shr_record_of_loc (Z.pos (Pos.iter xO m 52)) loc_Exact)
    with (Build_shr_record (Z.pos (Pos.iter xO m 52)) false false).
  rewrite !shr_52_exact.
  cbn [shr_m loc_of_shr_record round_nearest_even shr_record_of_loc].
  replace (-52 + e + 52)%Z with e by lia.
  replace (fexp prec emax (Zdigits2 (Z.pos m) + e) - e)%Z with 0%Z.
  2:{ unfold Zdigits2, fexp, emin. lia. }
  cbn [shr shr_m]. now rewrite Hb.
Qed.

Lemma SF64mul_one_l (x : spec_float) :
  valid_binary x = true ->
  SF64mul (S754_finite false 4503599627370496 (-52)) x = x.
Proof.
  intros Hv. unfold SF64mul, SFmul.
  destruct x as [s | s | | s m e]; try reflexivity.
  cbn [xorb valid_binary] in *.
  change (Pos.mul 4503599627370496 m) with (Pos.iter xO m 52).
  now apply binary_round_aux_shifted.
Qed.

Lemma SF64mul_one_r (x : spec_float) :
  valid_binary x = true ->
  SF64mul x (S754_finite false 4503599627370496 (-52)) = x.
Proof.
  intros Hv. unfold SF64mul, SFmul.
  destruct x as [s | s | | s m e]; try (destruct s; reflexivity);
    try reflexivity.
  cbn [valid_binary] in *.
  rewrite Pos.mul_comm, Z.add_comm, xorb_false_r.
  change (Pos.mul 4503599627370496 m) with (Pos.iter xO m 52).
  now apply binary_round_aux_shifted.
Qed.

Lemma float_mul_one_l (x : float) : PrimFloat.mul 1%float x = x.
Proof.
  apply Prim2SF_inj. rewrite FloatAxioms.mul_spec.
  change (Prim2SF 1%float) with (S754_finite false 4503599627370496 (-52)).
  apply SF64mul_one_l, Prim2SF_valid.
Qed.

Lemma float_mul_one_r (x : float) : PrimFloat.mul x 1%float = x.
Proof.
  apply Prim2SF_inj. rewrite FloatAxioms.mul_spec.
  change (Prim2SF 1%float) with (S754_finite false 4503599627370496 (-52)).
  apply SF64mul_one_r, Prim2SF_valid.
Qed.

(** X17. On floats the factor [1 - 0] and the factor [1] cost no
    rounding: the full local time and energy are [C * d / F] and
    [C * d * theta_exe] computed directly, the MEC time and energy at
    [omega = 0.0] and the ID time and energy at [omega = 1.0] are those of
    the whole slice, [C * (x * d) / f] and [C * (x * d) * theta_exe], for
    every float argument. *)
Theorem boundary_factors_are_exact_on_floats
    (C d x F f theta_exe : float) :
  calculate_full_task_execution_time_on_local C d F
  = div (PrimFloat.mul C d) F
  /\ calculate_full_task_execution_energy_consumption_on_local C d theta_exe
     = PrimFloat.mul (PrimFloat.mul C d) theta_exe
  /\ calculate_partial_task_execution_time_on_mec x d 0%float C f
     = div (PrimFloat.mul C (PrimFloat.mul x d)) f
  /\ calculate_partial_task_execution_energy_consumption_on_mec
       x d 0%float C theta_exe
     = PrimFloat.mul (PrimFloat.mul C (PrimFloat.mul x d)) theta_exe
  /\ calculate_partial_task_execution_time_on_id C 1%float x d f
     = div (PrimFloat.mul C (PrimFloat.mul x d)) f
  /\ calculate_partial_task_execution_energy_consumption_on_ID
       C 1%float x d theta_exe
     = PrimFloat.mul (PrimFloat.mul C (PrimFloat.mul x d)) theta_exe.
Proof.
  unfold_utils. cbn [zero one sub mul PyNum_float].
  change (PrimFloat.sub 1%float 0%float) with 1%float.
  rewrite !float_mul_one_l, !float_mul_one_r. repeat split.
Qed.

(** ** Transmission energy *)

(** X18. Feeding the transmission times into the transmission energies:
    at a non-zero rate the EU energy for the offloaded data is
    [P * (x * d / rate) * theta_tran], the BS energy for the relayed data
    at the same power and rate is [omega] times that, and either energy
    is additive in the transmission time. *)
Theorem transmission_energy_of_transmission_time
    (P x d omega rate theta_tran t1 t2 : R) :
  rate <> 0 ->
  exists t_eu t_bs : R,
    calculate_eu_to_bs_transmission_time x d rate = Ok t_eu
    /\ calculate_bs_to_id_transmission_time omega x d rate = Ok t_bs
    /\ calculate_eu_transmission_energy P t_eu theta_tran
       = P * (x * d / rate) * theta_tran
    /\ calculate_bs_transmission_energy P t_bs theta_tran
       = omega * calculate_eu_transmission_energy P t_eu theta_tran
    /\ calculate_eu_transmission_energy P (t1 + t2) theta_tran
       = calculate_eu_transmission_energy P t1 theta_tran
         + calculate_eu_transmission_energy P t2 theta_tran.
Proof.
  intros HR. exists (x * d / rate), (omega * x * d / rate).
  rewrite eu_to_bs_time_R, bs_to_id_time_R by assumption.
  repeat split; unfold_utils; cbn; field; assumption.
Qed.

Lemma transmission_energy_of_transmission_time_witness :
  exists t_eu t_bs : R,
    calculate_eu_to_bs_transmission_time (1 / 2) 8 7 = Ok t_eu
    /\ calculate_bs_to_id_transmission_time (1 / 4) (1 / 2) 8 7 = Ok t_bs
    /\ calculate_eu_transmission_energy 2 t_eu 10
       = 2 * (1 / 2 * 8 / 7) * 10
    /\ calculate_bs_transmission_energy 2 t_bs 10
       = 1 / 4 * calculate_eu_transmission_energy 2 t_eu 10
    /\ calculate_eu_transmission_energy 2 (1 + 3) 10
       = calculate_eu_transmission_energy 2 1 10
         + calculate_eu_transmission_energy 2 3 10.
Proof.
  apply (@transmission_energy_of_transmission_time
           2 (1 / 2) 8 (1 / 4) 7 10 1 3); lra.
Defined.
